(** * spotify-mcp: the tool router of [src/spotify_mcp/server.py]

    The five tool functions [SpotifyPlayback], [SpotifySearch],
    [SpotifyQueue], [SpotifyGetInfo] and [SpotifyPlaylist] are embedded as
    computations in a state-and-exception monad.  The state records the
    outside world behind the vendor client, the adapter calls made so far
    and the lines handed to the logger.  The vendor client
    ([spotify_api.Client]) is external: its behaviour is a parameter of the
    development.  Python's [json] module is external too; the part of it the
    router uses ([json.dumps], [json.loads]) is modelled in [Module Json]. *)

From Stdlib Require Import String Ascii List ZArith NArith Bool Lia.
From Stdlib Require Import DecimalString.
Import ListNotations.

Set Warnings "-register-all".

Local Open Scope list_scope.
Local Open Scope string_scope.

(** ** Python values *)

(** Keys of a [dict].  [KOther] is a hashable key of another type (a tuple,
    say), given by the name of its type. *)
Inductive pykey : Type :=
| KStr (s : list N)
| KInt (z : Z)
| KFloat (lit : string)
| KBool (b : bool)
| KNone
| KOther (type_name : string).

(** The objects exchanged with the adapter and with [json].  A [str] is the
    list of its code points.  A [float] is carried as a decimal literal that
    denotes it (its [repr] when it comes from the adapter, the matched text
    when it comes from [json.loads]); float arithmetic is not modelled.
    [PObj] is an instance of a class that [json] cannot serialise
    ([datetime], say): it is truthy and has no [get] method. *)
Inductive pyval : Type :=
| PNone
| PBool (b : bool)
| PInt (z : Z)
| PFloat (lit : string)
| PStr (s : list N)
| PList (l : list pyval)
| PDict (d : list (pykey * pyval))
| PObj (type_name : string).

(** The text parameters of the tools ([action], [query], [track_id], ...)
    are Rocq strings: one character per code point, code points below 256. *)
Definition codes (s : string) : list N :=
  map N_of_ascii (list_ascii_of_string s).

Definition str_val (s : string) : pyval := PStr (codes s).

(** ** Exceptions *)

(** The exceptions of the model are instances of Python's [Exception]:
    [SpotifyException] (spotipy), [json.JSONDecodeError], and every other
    subclass, given by its name.  Signals that derive from [BaseException]
    only ([KeyboardInterrupt], [SystemExit]) are not errors raised by the
    adapter or by [json] and are not part of the model. *)
Inductive exn_class : Type :=
| SpotifyException
| JSONDecodeError
| OtherException (type_name : string).

Record exn : Type := mkExn { exn_type : exn_class; exn_str : string }.

Inductive outcome (A : Type) : Type :=
| Ret (a : A)
| Raise (e : exn).
Arguments Ret {A} a.
Arguments Raise {A} e.

Definition obind {A B} (o : outcome A) (k : A -> outcome B) : outcome B :=
  match o with
  | Ret a => k a
  | Raise e => Raise e
  end.

Definition is_spotify_exception (e : exn) : bool :=
  match exn_type e with SpotifyException => true | _ => false end.

Definition is_json_decode_error (e : exn) : bool :=
  match exn_type e with JSONDecodeError => true | _ => false end.

(** [except Exception]: every exception of the model. *)
Definition is_exception (e : exn) : bool := true.

(** ** Characters *)

Definition dquote : ascii := "034"%char.
Definition bslash : ascii := "092"%char.
Definition newline : ascii := "010"%char.

Definition chr (c : ascii) : string := String c EmptyString.

Definition int_str (z : Z) : string := NilZero.string_of_int (Z.to_int z).

Fixpoint spaces (n : nat) : string :=
  match n with
  | O => ""
  | S n' => String " " (spaces n')
  end.

(** [str.startswith]: [after p s] is the rest of [s] behind the prefix [p]. *)
Fixpoint after (p s : string) : option string :=
  match p with
  | EmptyString => Some s
  | String a p' =>
      match s with
      | EmptyString => None
      | String b s' => if Ascii.eqb a b then after p' s' else None
      end
  end.

(** [a in s], for texts. *)
Fixpoint contains (a s : string) : bool :=
  match after a s with
  | Some _ => true
  | None =>
      match s with
      | EmptyString => false
      | String _ s' => contains a s'
      end
  end.

(** ** Python's [json] module *)

Module Json.

(** *** [json.dumps]: [JSONEncoder] with [ensure_ascii=True],
    [allow_nan=True], [skipkeys=False] *)

Definition hex_digit (n : N) : ascii :=
  if (n <? 10)%N then ascii_of_N (48 + n) else ascii_of_N (87 + n).

(** ['\\u{0:04x}'.format(n)] *)
Definition u_escape (n : N) : string :=
  String bslash (String "u"
    (String (hex_digit (N.land (N.shiftr n 12) 15))
    (String (hex_digit (N.land (N.shiftr n 8) 15))
    (String (hex_digit (N.land (N.shiftr n 4) 15))
    (String (hex_digit (N.land n 15)) ""))))).

(** One character of [py_encode_basestring_ascii]: [ESCAPE_DCT] first, the
    printable ASCII characters as they are, the rest as [\uXXXX], beyond the
    basic plane as a surrogate pair. *)
Definition escape_char (c : N) : string :=
  if (c =? 34)%N then String bslash (chr dquote)
  else if (c =? 92)%N then String bslash (chr bslash)
  else if (c =? 10)%N then String bslash "n"
  else if (c =? 13)%N then String bslash "r"
  else if (c =? 9)%N then String bslash "t"
  else if (c =? 12)%N then String bslash "f"
  else if (c =? 8)%N then String bslash "b"
  else if (32 <=? c)%N && (c <=? 126)%N then chr (ascii_of_N c)
  else if (c <? 65536)%N then u_escape c
  else
    let n := (c - 65536)%N in
    u_escape (N.lor 55296 (N.land (N.shiftr n 10) 1023))
      ++ u_escape (N.lor 56320 (N.land n 1023)).

Fixpoint escape_body (s : list N) : string :=
  match s with
  | [] => ""
  | c :: s' => escape_char c ++ escape_body s'
  end.

Definition encode_basestring_ascii (s : list N) : string :=
  String dquote (escape_body s ++ chr dquote).

(** ['\n' + _indent * _current_indent_level], empty without [indent]. *)
Definition newline_indent (indent : option nat) (level : nat) : string :=
  match indent with
  | None => ""
  | Some n => String newline (spaces (n * level))
  end.

(** [json.dumps] picks [', '] without [indent] and [','] with it. *)
Definition item_separator (indent : option nat) : string :=
  match indent with
  | None => ", "
  | Some _ => ","
  end.

Definition key_separator : string := ": ".

Definition type_error (msg : string) : exn :=
  mkExn (OtherException "TypeError") msg.

Definition encode_key (k : pykey) : outcome string :=
  match k with
  | KStr s => Ret (encode_basestring_ascii s)
  | KFloat lit => Ret (encode_basestring_ascii (codes lit))
  | KBool true => Ret (encode_basestring_ascii (codes "true"))
  | KBool false => Ret (encode_basestring_ascii (codes "false"))
  | KNone => Ret (encode_basestring_ascii (codes "null"))
  | KInt z => Ret (encode_basestring_ascii (codes (int_str z)))
  | KOther t =>
      Raise (type_error
        ("keys must be str, int, float, bool or None, not " ++ t))
  end.

(** [_iterencode], [_iterencode_list] and [_iterencode_dict], the chunks
    joined.  The first element that cannot be encoded raises. *)
Fixpoint iterencode (indent : option nat) (level : nat) (o : pyval)
  : outcome string :=
  match o with
  | PStr s => Ret (encode_basestring_ascii s)
  | PNone => Ret "null"
  | PBool true => Ret "true"
  | PBool false => Ret "false"
  | PInt z => Ret (int_str z)
  | PFloat lit => Ret lit
  | PList [] => Ret "[]"
  | PList (v :: l) =>
      let separator := item_separator indent ++ newline_indent indent (S level) in
      obind (iterencode indent (S level) v) (fun first =>
      obind ((fix rest (l : list pyval) : outcome string :=
                match l with
                | [] => Ret ""
                | v :: l' =>
                    obind (iterencode indent (S level) v) (fun x =>
                    obind (rest l') (fun xs => Ret (separator ++ x ++ xs)))
                end) l) (fun others =>
      Ret ("[" ++ newline_indent indent (S level) ++ first ++ others
               ++ newline_indent indent level ++ "]")))
  | PDict [] => Ret "{}"
  | PDict ((k, v) :: d) =>
      let separator := item_separator indent ++ newline_indent indent (S level) in
      obind (encode_key k) (fun key =>
      obind (iterencode indent (S level) v) (fun first =>
      obind ((fix rest (d : list (pykey * pyval)) : outcome string :=
                match d with
                | [] => Ret ""
                | (k, v) :: d' =>
                    obind (encode_key k) (fun key =>
                    obind (iterencode indent (S level) v) (fun x =>
                    obind (rest d') (fun xs =>
                    Ret (separator ++ key ++ key_separator ++ x ++ xs))))
                end) d) (fun others =>
      Ret ("{" ++ newline_indent indent (S level)
               ++ key ++ key_separator ++ first ++ others
               ++ newline_indent indent level ++ "}"))))
  | PObj t =>
      Raise (type_error ("Object of type " ++ t ++ " is not JSON serializable"))
  end.

Definition dumps (obj : pyval) (indent : option nat) : outcome string :=
  iterencode indent 0 obj.

(** *** [json.loads]: [JSONDecoder] with [strict=True] and no hooks

    A [JSONDecodeError] carries the message without the position that
    Python appends to it. *)

Definition decode_error (msg : string) : exn := mkExn JSONDecodeError msg.

(** The scanner recurses on nested values; [fuel] makes the recursion
    structural, and running out of it is reported as a [RecursionError].
    [loads] gives fuel enough for the whole text, so that error never shows
    (lemma [scanner_decodes_or_rejects]).  The interpreter's own limits
    (recursion depth, digits of an [int]) are not modelled. *)
Definition recursion_error : exn :=
  mkExn (OtherException "RecursionError") "maximum recursion depth exceeded".

Definition is_whitespace (c : ascii) : bool :=
  Ascii.eqb c " " || Ascii.eqb c "009" || Ascii.eqb c "010" || Ascii.eqb c "013".

(** [WHITESPACE.match(s, end).end()] *)
Fixpoint skip_whitespace (s : string) : string :=
  match s with
  | EmptyString => s
  | String c s' => if is_whitespace c then skip_whitespace s' else s
  end.

Definition is_digit (c : ascii) : bool :=
  let n := N_of_ascii c in (48 <=? n)%N && (n <=? 57)%N.

(** One digit of [HEXDIGITS = '[0-9A-Fa-f]{4}']. *)
Definition hex_value (c : ascii) : option N :=
  let n := N_of_ascii c in
  if (48 <=? n)%N && (n <=? 57)%N then Some (n - 48)%N
  else if (65 <=? n)%N && (n <=? 70)%N then Some (n - 55)%N
  else if (97 <=? n)%N && (n <=? 102)%N then Some (n - 87)%N
  else None.

(** [int(esc.group(), 16)] on four characters. *)
Definition decode_uXXXX (h1 h2 h3 h4 : ascii) : option N :=
  match hex_value h1, hex_value h2, hex_value h3, hex_value h4 with
  | Some a, Some b, Some c, Some d => Some (((a * 16 + b) * 16 + c) * 16 + d)%N
  | _, _, _, _ => None
  end.

(** The table [BACKSLASH]. *)
Definition backslash (esc : ascii) : option N :=
  if Ascii.eqb esc dquote then Some 34%N
  else if Ascii.eqb esc bslash then Some 92%N
  else if Ascii.eqb esc "/" then Some 47%N
  else if Ascii.eqb esc "b" then Some 8%N
  else if Ascii.eqb esc "f" then Some 12%N
  else if Ascii.eqb esc "n" then Some 10%N
  else if Ascii.eqb esc "r" then Some 13%N
  else if Ascii.eqb esc "t" then Some 9%N
  else None.

Definition is_high_surrogate (u : N) : bool := (55296 <=? u)%N && (u <=? 56319)%N.
Definition is_low_surrogate (u : N) : bool := (56320 <=? u)%N && (u <=? 57343)%N.

Definition join_surrogates (uni uni2 : N) : N :=
  (65536 + N.lor (N.shiftl (uni - 55296) 10) (uni2 - 56320))%N.

(** [py_scanstring], entered behind the opening quote: the decoded
    characters read so far are [chunks]; the result is the [str] and the
    text behind the closing quote. *)
Fixpoint scanstring (s : string) (chunks : list N) : outcome (list N * string) :=
  match s with
  | EmptyString => Raise (decode_error "Unterminated string starting at")
  | String c s1 =>
      if Ascii.eqb c dquote then Ret (chunks, s1)
      else if Ascii.eqb c bslash then
        match s1 with
        | EmptyString => Raise (decode_error "Unterminated string starting at")
        | String esc s2 =>
            if Ascii.eqb esc "u" then
              match s2 with
              | String h1 (String h2 (String h3 (String h4 s6))) =>
                  match decode_uXXXX h1 h2 h3 h4 with
                  | None => Raise (decode_error "Invalid \uXXXX escape")
                  | Some uni =>
                      if is_high_surrogate uni then
                        match s6 with
                        | String b (String u s8) =>
                            if Ascii.eqb b bslash && Ascii.eqb u "u" then
                              match s8 with
                              | String g1 (String g2 (String g3 (String g4 s12))) =>
                                  match decode_uXXXX g1 g2 g3 g4 with
                                  | None =>
                                      Raise (decode_error "Invalid \uXXXX escape")
                                  | Some uni2 =>
                                      if is_low_surrogate uni2
                                      then scanstring s12
                                             (chunks ++ [join_surrogates uni uni2])%list
                                      else scanstring s6 (chunks ++ [uni])%list
                                  end
                              | _ => Raise (decode_error "Invalid \uXXXX escape")
                              end
                            else scanstring s6 (chunks ++ [uni])%list
                        | _ => scanstring s6 (chunks ++ [uni])%list
                        end
                      else scanstring s6 (chunks ++ [uni])%list
                  end
              | _ => Raise (decode_error "Invalid \uXXXX escape")
              end
            else
              match backslash esc with
              | Some char => scanstring s2 (chunks ++ [char])%list
              | None => Raise (decode_error "Invalid \escape")
              end
        end
      else if (N_of_ascii c <? 32)%N
      then Raise (decode_error "Invalid control character at")
      else scanstring s1 (chunks ++ [N_of_ascii c])%list
  end.

(** The longest run of digits in front of [s], and what follows it. *)
Fixpoint span_digits (s : string) : string * string :=
  match s with
  | EmptyString => ("", s)
  | String c s' =>
      if is_digit c
      then let (ds, r) := span_digits s' in (String c ds, r)
      else ("", s)
  end.

(** [int(integer)] for a run of decimal digits. *)
Definition int_of_digits (ds : string) : Z :=
  fold_left (fun acc c => (acc * 10 + Z.of_N (N_of_ascii c - 48))%Z)
            (list_ascii_of_string ds) 0%Z.

(** The fraction of [NUMBER_RE]: a dot and at least one digit, or nothing. *)
Definition match_frac (s : string) : string * string :=
  match s with
  | String c s' =>
      if Ascii.eqb c "." then
        match span_digits s' with
        | (EmptyString, _) => ("", s)
        | (ds, r) => (String c ds, r)
        end
      else ("", s)
  | EmptyString => ("", s)
  end.

(** The exponent of [NUMBER_RE]: [e] or [E], an optional sign and at least
    one digit, or nothing. *)
Definition match_exp (s : string) : string * string :=
  match s with
  | String e s' =>
      if Ascii.eqb e "e" || Ascii.eqb e "E" then
        let (sign, s'') :=
          match s' with
          | String g t => if Ascii.eqb g "-" || Ascii.eqb g "+"
                          then (chr g, t) else ("", s')
          | EmptyString => ("", s')
          end in
        match span_digits s'' with
        | (EmptyString, _) => ("", s)
        | (ds, r) => (String e (sign ++ ds), r)
        end
      else ("", s)
  | EmptyString => ("", s)
  end.

(** The integer part of [NUMBER_RE]: an optional minus sign, then [0] or a
    run of digits that does not start with [0]. *)
Definition match_integer (s : string) : option (string * string) :=
  let (sign, s') :=
    match s with
    | String c t => if Ascii.eqb c "-" then ("-", t) else ("", s)
    | EmptyString => ("", s)
    end in
  match s' with
  | String c t =>
      if Ascii.eqb c "0" then Some (sign ++ "0", t)
      else if is_digit c
      then let (ds, r) := span_digits t in Some (sign ++ String c ds, r)
      else None
  | EmptyString => None
  end.

Definition parse_int (integer : string) : Z :=
  match integer with
  | String c ds =>
      if Ascii.eqb c "-" then (- int_of_digits ds)%Z else int_of_digits integer
  | EmptyString => int_of_digits integer
  end.

(** [NUMBER_RE.match] and the choice between [parse_float] and
    [parse_int]. *)
Definition match_number (s : string) : option (pyval * string) :=
  match match_integer s with
  | None => None
  | Some (integer, r1) =>
      let (frac, r2) := match_frac r1 in
      let (exp, r3) := match_exp r2 in
      match frac, exp with
      | EmptyString, EmptyString => Some (PInt (parse_int integer), r3)
      | _, _ => Some (PFloat (integer ++ frac ++ exp), r3)
      end
  end.

Definition str_eqb (a b : list N) : bool :=
  if list_eq_dec N.eq_dec a b then true else false.

(** [dict(pairs)]: a later pair with the same key replaces the value and
    keeps the place of the first. *)
Fixpoint dict_store (d : list (pykey * pyval)) (key : list N) (value : pyval)
  : list (pykey * pyval) :=
  match d with
  | [] => [(KStr key, value)]
  | (KStr k, v) :: d' =>
      if str_eqb k key then (KStr k, value) :: d'
      else (KStr k, v) :: dict_store d' key value
  | kv :: d' => kv :: dict_store d' key value
  end.

(** [scan_once], [JSONArray] and [JSONObject].  [array_items] is the loop
    of [JSONArray], entered in front of a value; [object_items] the loop of
    [JSONObject], entered behind the opening quote of a key. *)
Fixpoint scan_once (fuel : nat) (s : string) : outcome (pyval * string) :=
  match fuel with
  | O => Raise recursion_error
  | S fuel' =>
      match s with
      | EmptyString => Raise (decode_error "Expecting value")
      | String nextchar s1 =>
          if Ascii.eqb nextchar dquote then
            obind (scanstring s1 []) (fun '(str, r) => Ret (PStr str, r))
          else if Ascii.eqb nextchar "{" then
            match skip_whitespace s1 with
            | String c r =>
                if Ascii.eqb c "}" then Ret (PDict [], r)
                else if Ascii.eqb c dquote then object_items fuel' r []
                else Raise (decode_error
                       "Expecting property name enclosed in double quotes")
            | EmptyString =>
                Raise (decode_error
                  "Expecting property name enclosed in double quotes")
            end
          else if Ascii.eqb nextchar "[" then
            let s2 := skip_whitespace s1 in
            match s2 with
            | String c r =>
                if Ascii.eqb c "]" then Ret (PList [], r)
                else array_items fuel' s2 []
            | EmptyString => array_items fuel' s2 []
            end
          else
            match after "null" s, after "true" s, after "false" s with
            | Some r, _, _ => Ret (PNone, r)
            | _, Some r, _ => Ret (PBool true, r)
            | _, _, Some r => Ret (PBool false, r)
            | None, None, None =>
                match match_number s with
                | Some res => Ret res
                | None =>
                    match after "NaN" s, after "Infinity" s,
                          after "-Infinity" s with
                    | Some r, _, _ => Ret (PFloat "NaN", r)
                    | _, Some r, _ => Ret (PFloat "Infinity", r)
                    | _, _, Some r => Ret (PFloat "-Infinity", r)
                    | None, None, None => Raise (decode_error "Expecting value")
                    end
                end
            end
      end
  end

with array_items (fuel : nat) (s : string) (values : list pyval)
  : outcome (pyval * string) :=
  match fuel with
  | O => Raise recursion_error
  | S fuel' =>
      obind (scan_once fuel' s) (fun '(value, r) =>
      match skip_whitespace r with
      | String nextchar r' =>
          if Ascii.eqb nextchar "]" then Ret (PList (values ++ [value])%list, r')
          else if Ascii.eqb nextchar ","
          then array_items fuel' (skip_whitespace r') (values ++ [value])%list
          else Raise (decode_error "Expecting ',' delimiter")
      | EmptyString => Raise (decode_error "Expecting ',' delimiter")
      end)
  end

with object_items (fuel : nat) (s : string) (pairs : list (pykey * pyval))
  : outcome (pyval * string) :=
  match fuel with
  | O => Raise recursion_error
  | S fuel' =>
      obind (scanstring s []) (fun '(key, r) =>
      match skip_whitespace r with
      | String colon r1 =>
          if negb (Ascii.eqb colon ":")
          then Raise (decode_error "Expecting ':' delimiter")
          else
          obind (scan_once fuel' (skip_whitespace r1)) (fun '(value, r2) =>
          let pairs' := dict_store pairs key value in
          match skip_whitespace r2 with
          | String nextchar r3 =>
              if Ascii.eqb nextchar "}" then Ret (PDict pairs', r3)
              else if Ascii.eqb nextchar "," then
                match skip_whitespace r3 with
                | String c r4 =>
                    if Ascii.eqb c dquote then object_items fuel' r4 pairs'
                    else Raise (decode_error
                           "Expecting property name enclosed in double quotes")
                | EmptyString =>
                    Raise (decode_error
                      "Expecting property name enclosed in double quotes")
                end
              else Raise (decode_error "Expecting ',' delimiter")
          | EmptyString => Raise (decode_error "Expecting ',' delimiter")
          end)
      | EmptyString => Raise (decode_error "Expecting ':' delimiter")
      end)
  end.

(** [JSONDecoder.decode]: one value between optional whitespace, then the
    end of the text.  Every recursive call of the scanner follows at least one
    consumed character, so twice the length of the text is fuel enough.  (A
    text of this model holds no U+FEFF, which [loads] would reject first.) *)
Definition loads (s : string) : outcome pyval :=
  obind (scan_once (2 * String.length s + 2) (skip_whitespace s))
        (fun '(obj, r) =>
           match skip_whitespace r with
           | EmptyString => Ret obj
           | _ => Raise (decode_error "Extra data")
           end).

End Json.

(** ** The vendor client adapter *)

(** The track ids handed to [SpotifyPlaylist]: declared [List[str]], and a
    [str] is accepted as well ([isinstance(track_ids, str)]). *)
Inductive track_ids_t : Type :=
| IdsStr (s : string)
| IdsList (l : list string).

(** The methods of [spotify_client] the router calls, with their
    arguments. *)
Inductive call : Type :=
| get_current_track
| start_playback (spotify_uri : option string)
| pause_playback
| skip_track (n : Z)
| search (query : string) (qtype : string) (limit : Z)
| add_to_queue (track_id : string)
| get_queue
| get_info (item_uri : string)
| get_current_user_playlists
| get_playlist_tracks (playlist_id : string)
| add_tracks_to_playlist (playlist_id : string) (track_ids : pyval)
| remove_tracks_from_playlist (playlist_id : string) (track_ids : pyval)
| change_playlist_details (playlist_id : string) (name description : option string).

Inductive level : Type := INFO | ERROR.

(** ** Truth values and formatting *)

(** A truthy [Optional[str]] is a non-empty [str]. *)
Definition truthy_str (o : option string) : option string :=
  match o with
  | Some (String c s) => Some (String c s)
  | _ => None
  end.

(** A truthy [Optional[int]] is a non-zero [int]. *)
Definition truthy_int (o : option Z) : option Z :=
  match o with
  | Some z => if (z =? 0)%Z then None else Some z
  | None => None
  end.

(** Truthy track ids are a non-empty [str] or a non-empty list. *)
Definition truthy_ids (o : option track_ids_t) : option track_ids_t :=
  match o with
  | Some (IdsStr (String c s)) => Some (IdsStr (String c s))
  | Some (IdsList (x :: l)) => Some (IdsList (x :: l))
  | _ => None
  end.

(** [x or default] *)
Definition or_default {A} (truthy : option A) (default : A) : A :=
  match truthy with
  | Some x => x
  | None => default
  end.

(** A float literal denotes zero when its mantissa has no digit but [0]. *)
Fixpoint mantissa_nonzero (lit : string) : bool :=
  match lit with
  | EmptyString => false
  | String c s =>
      if Ascii.eqb c "e" || Ascii.eqb c "E" then false
      else if Ascii.eqb c "N" || Ascii.eqb c "I" then true
      else ((49 <=? N_of_ascii c)%N && (N_of_ascii c <=? 57)%N)
           || mantissa_nonzero s
  end.

(** [bool(o)] *)
Definition truthy (o : pyval) : bool :=
  match o with
  | PNone => false
  | PBool b => b
  | PInt z => negb (z =? 0)%Z
  | PFloat lit => mantissa_nonzero lit
  | PStr s => match s with [] => false | _ => true end
  | PList l => match l with [] => false | _ => true end
  | PDict d => match d with [] => false | _ => true end
  | PObj _ => true
  end.

Definition type_name (o : pyval) : string :=
  match o with
  | PNone => "NoneType"
  | PBool _ => "bool"
  | PInt _ => "int"
  | PFloat _ => "float"
  | PStr _ => "str"
  | PList _ => "list"
  | PDict _ => "dict"
  | PObj t => t
  end.

(** [dict.get(key, default)] for a [str] key. *)
Fixpoint dict_get (d : list (pykey * pyval)) (key : list N) (default : pyval)
  : pyval :=
  match d with
  | [] => default
  | (KStr k, v) :: d' => if Json.str_eqb k key then v else dict_get d' key default
  | _ :: d' => dict_get d' key default
  end.

(** [o.get(key, default)]: only a [dict] has the method. *)
Definition get_method (o : pyval) (key : string) (default : pyval) : outcome pyval :=
  match o with
  | PDict d => Ret (dict_get d (codes key) default)
  | _ => Raise (mkExn (OtherException "AttributeError")
                  ("'" ++ type_name o ++ "' object has no attribute 'get'"))
  end.

(** [f"{x}"] for an [Optional[str]] and an [Optional[int]]. *)
Definition fmt_str (o : option string) : string :=
  match o with Some s => s | None => "None" end.

Definition fmt_int (o : option Z) : string :=
  match o with Some z => int_str z | None => "None" end.

Definition ids_val (l : list string) : pyval := PList (map str_val l).

(** ** The router *)

Section Router.

(** The adapter: what a call returns or raises, and how it changes the
    world behind the client (the Spotify account, the network). *)
Variable World : Type.
Variable adapter : call -> World -> outcome pyval * World.

(** [f"{x}"] for an object returned by the adapter. *)
Variable py_str : pyval -> string.

Record state : Type := mkState {
  world : World;
  calls : list (call * outcome pyval);
  log : list (level * string)
}.

Definition M (A : Type) : Type := state -> outcome A * state.

Definition ret {A} (a : A) : M A := fun st => (Ret a, st).

Definition bind {A B} (m : M A) (k : A -> M B) : M B :=
  fun st =>
    match m st with
    | (Ret a, st') => k a st'
    | (Raise e, st') => (Raise e, st')
    end.

Definition lift {A} (o : outcome A) : M A := fun st => (o, st).

Notation "x <- m ;; k" := (bind m (fun x => k))
  (at level 61, m at next level, right associativity).
Notation "m ;; k" := (bind m (fun _ => k))
  (at level 61, right associativity).

(** [try: body except C1 as e: h1 except C2 as e: h2]: the first clause
    whose class the exception belongs to handles it; without one it goes
    on. *)
Definition clause (A : Type) : Type := (exn -> bool) * (exn -> M A).

Definition try_except {A} (body : M A) (clauses : list (clause A)) : M A :=
  fun st =>
    match body st with
    | (Ret a, st') => (Ret a, st')
    | (Raise e, st') =>
        match find (fun c : clause A => fst c e) clauses with
        | Some c => snd c e st'
        | None => (Raise e, st')
        end
    end.

Definition logger_info (message : string) : M unit :=
  fun st => (Ret tt, mkState (world st) (calls st) (log st ++ [(INFO, message)])).

Definition logger_error (message : string) : M unit :=
  fun st => (Ret tt, mkState (world st) (calls st) (log st ++ [(ERROR, message)])).

(** A method call on [spotify_client], recorded with its outcome. *)
Definition spotify_client (c : call) : M pyval :=
  fun st =>
    let (o, w) := adapter c (world st) in
    (o, mkState w (calls st ++ [(c, o)]) (log st)).

(** The two [except] clauses every tool function ends with. *)
Definition error_mapping : list (clause string) :=
  [ (is_spotify_exception, fun se =>
       let error_msg := "Spotify Client error occurred: " ++ exn_str se in
       logger_error error_msg ;;
       ret ("An error occurred with the Spotify Client: " ++ exn_str se));
    (is_exception, fun e =>
       let error_msg := "Unexpected error occurred: " ++ exn_str e in
       logger_error error_msg ;;
       ret error_msg) ].

Definition SpotifyPlayback (action : string) (spotify_uri : option string)
                           (num_skips : option Z) : M string :=
  logger_info ("Playback action: " ++ action ++ " with arguments: spotify_uri="
                 ++ fmt_str spotify_uri ++ ", num_skips=" ++ fmt_int num_skips) ;;
  try_except
    (if action =? "get" then
       logger_info "Attempting to get current track" ;;
       curr_track <- spotify_client get_current_track ;;
       if truthy curr_track then
         name <- lift (get_method curr_track "name" (str_val "Unknown")) ;;
         logger_info ("Current track retrieved: " ++ py_str name) ;;
         lift (Json.dumps curr_track (Some 2))
       else
         logger_info "No track currently playing" ;;
         ret "No track playing."
     else if action =? "start" then
       logger_info ("Starting playback with spotify_uri: " ++ fmt_str spotify_uri) ;;
       spotify_client (start_playback spotify_uri) ;;
       logger_info "Playback started successfully" ;;
       ret "Playback starting."
     else if action =? "pause" then
       logger_info "Attempting to pause playback" ;;
       spotify_client pause_playback ;;
       logger_info "Playback paused successfully" ;;
       ret "Playback paused."
     else if action =? "skip" then
       let num_skips := or_default (truthy_int num_skips) 1%Z in
       logger_info ("Skipping " ++ int_str num_skips ++ " tracks.") ;;
       spotify_client (skip_track num_skips) ;;
       ret "Skipped to next track."
     else
       ret ("Unknown action: " ++ action
              ++ ". Supported actions are: get, start, pause, skip."))
    error_mapping.

Definition SpotifySearch (query : string) (qtype : option string)
                         (limit : option Z) : M string :=
  logger_info ("Performing search with query: " ++ query ++ ", type: "
                 ++ fmt_str qtype ++ ", limit: " ++ fmt_int limit) ;;
  try_except
    (search_results <- spotify_client
         (search query (or_default (truthy_str qtype) "track")
                       (or_default (truthy_int limit) 10%Z)) ;;
     logger_info "Search completed successfully." ;;
     lift (Json.dumps search_results (Some 2)))
    error_mapping.

Definition SpotifyQueue (action : string) (track_id : option string) : M string :=
  logger_info ("Queue operation with action: " ++ action ++ ", track_id: "
                 ++ fmt_str track_id) ;;
  try_except
    (if action =? "add" then
       match truthy_str track_id with
       | None =>
           logger_error "track_id is required for add to queue." ;;
           ret "track_id is required for add action"
       | Some track_id =>
           spotify_client (add_to_queue track_id) ;;
           ret "Track added to queue."
       end
     else if action =? "get" then
       queue <- spotify_client get_queue ;;
       lift (Json.dumps queue (Some 2))
     else
       ret ("Unknown queue action: " ++ action
              ++ ". Supported actions are: add and get."))
    error_mapping.

Definition SpotifyGetInfo (item_uri : string) : M string :=
  logger_info ("Getting item info for uri: " ++ item_uri) ;;
  try_except
    (item_info <- spotify_client (get_info item_uri) ;;
     lift (Json.dumps item_info (Some 2)))
    error_mapping.

(** [if isinstance(track_ids, str): try: track_ids = json.loads(track_ids)
    except json.JSONDecodeError: return "Error: ..."]: the parsed ids on the
    right, the text returned by the [except] clause on the left. *)
Definition parse_track_ids (track_ids : track_ids_t) : M (string + pyval) :=
  match track_ids with
  | IdsStr s =>
      try_except
        (parsed <- lift (Json.loads s) ;; ret (inr parsed))
        [ (is_json_decode_error, fun _ =>
             ret (inl "Error: track_ids must be a list or a valid JSON array.")) ]
  | IdsList l => ret (inr (ids_val l))
  end.

Definition SpotifyPlaylist (action : string) (playlist_id : option string)
                           (track_ids : option track_ids_t)
                           (name description : option string) : M string :=
  logger_info ("Playlist operation with action: " ++ action) ;;
  try_except
    (if action =? "get" then
       logger_info "Getting current user's playlists" ;;
       playlists <- spotify_client get_current_user_playlists ;;
       lift (Json.dumps playlists (Some 2))
     else if action =? "get_tracks" then
       match truthy_str playlist_id with
       | None =>
           logger_error "playlist_id is required for get_tracks action." ;;
           ret "playlist_id is required for get_tracks action."
       | Some playlist_id =>
           logger_info ("Getting tracks in playlist: " ++ playlist_id) ;;
           tracks <- spotify_client (get_playlist_tracks playlist_id) ;;
           lift (Json.dumps tracks (Some 2))
       end
     else if action =? "add_tracks" then
       match truthy_str playlist_id, truthy_ids track_ids with
       | Some playlist_id, Some track_ids =>
           logger_info ("Adding tracks to playlist: " ++ playlist_id) ;;
           parsed <- parse_track_ids track_ids ;;
           match parsed with
           | inl message => ret message
           | inr track_ids =>
               spotify_client (add_tracks_to_playlist playlist_id track_ids) ;;
               ret "Tracks added to playlist."
           end
       | _, _ =>
           ret "playlist_id and track_ids are required for add_tracks action."
       end
     else if action =? "remove_tracks" then
       match truthy_str playlist_id, truthy_ids track_ids with
       | Some playlist_id, Some track_ids =>
           logger_info ("Removing tracks from playlist: " ++ playlist_id) ;;
           parsed <- parse_track_ids track_ids ;;
           match parsed with
           | inl message => ret message
           | inr track_ids =>
               spotify_client (remove_tracks_from_playlist playlist_id track_ids) ;;
               ret "Tracks removed from playlist."
           end
       | _, _ =>
           ret "playlist_id and track_ids are required for remove_tracks action."
       end
     else if action =? "change_details" then
       match truthy_str playlist_id with
       | None => ret "playlist_id is required for change_details action."
       | Some playlist_id =>
           match truthy_str name, truthy_str description with
           | None, None => ret "At least one of name or description is required."
           | _, _ =>
               logger_info ("Changing playlist details for: " ++ playlist_id) ;;
               spotify_client (change_playlist_details playlist_id name description) ;;
               ret "Playlist details changed."
           end
       end
     else
       ret ("Unknown playlist action: " ++ action
              ++ ". Supported actions are: get, get_tracks, add_tracks, remove_tracks, change_details."))
    error_mapping.

(** A tool call: the tool's input model with its fields. *)
Inductive request : Type :=
| Playback (action : string) (spotify_uri : option string) (num_skips : option Z)
| Search (query : string) (qtype : option string) (limit : option Z)
| Queue (action : string) (track_id : option string)
| GetInfo (item_uri : string)
| Playlist (action : string) (playlist_id : option string)
           (track_ids : option track_ids_t) (name description : option string).

Definition call_tool (r : request) : M string :=
  match r with
  | Playback action spotify_uri num_skips =>
      SpotifyPlayback action spotify_uri num_skips
  | Search query qtype limit => SpotifySearch query qtype limit
  | Queue action track_id => SpotifyQueue action track_id
  | GetInfo item_uri => SpotifyGetInfo item_uri
  | Playlist action playlist_id track_ids name description =>
      SpotifyPlaylist action playlist_id track_ids name description
  end.

(** What a finished call shows: the returned text, the adapter calls it
    added and the lines it logged at error level. *)
Definition is_error (entry : level * string) : bool :=
  match fst entry with ERROR => true | INFO => false end.

Definition errors (st : state) : list (level * string) := filter is_error (log st).

Definition init (w : World) : state := mkState w [] [].

End Router.

Arguments mkState {World} world calls log.
Arguments ret {World A} a _.
Arguments bind {World A B} m k _.
Arguments lift {World A} o _.
Arguments try_except {World A} body clauses _.
Arguments logger_info {World} message _.
Arguments logger_error {World} message _.
Arguments spotify_client {World} adapter c _.
Arguments error_mapping {World}.
Arguments parse_track_ids {World} track_ids _.
Arguments world {World} s.
Arguments calls {World} s.
Arguments log {World} s.
Arguments errors {World} st.
Arguments init {World} w.
Arguments SpotifyPlayback {World} adapter py_str action spotify_uri num_skips _.
Arguments SpotifySearch {World} adapter query qtype limit _.
Arguments SpotifyQueue {World} adapter action track_id _.
Arguments SpotifyGetInfo {World} adapter item_uri _.
Arguments SpotifyPlaylist {World} adapter action playlist_id track_ids name description _.
Arguments call_tool {World} adapter py_str r _.

(** The action names each dispatching tool matches on. *)
Definition playback_actions : list string := ["get"; "start"; "pause"; "skip"].
Definition queue_actions : list string := ["add"; "get"].
Definition playlist_actions : list string :=
  ["get"; "get_tracks"; "add_tracks"; "remove_tracks"; "change_details"].

(** ** Sample adapters

    [sample_adapter] answers every call and counts the calls it served;
    [failing_adapter e] raises [e] on every call. *)
Definition sample_track : pyval :=
  PDict [(KStr (codes "name"), str_val "Clair de lune");
         (KStr (codes "id"), str_val "5u5aVJKjSMJr4zesMPz7bL");
         (KStr (codes "is_playing"), PBool true)].

Definition sample_adapter (c : call) (served : nat) : outcome pyval * nat :=
  (Ret match c with
       | get_current_track => sample_track
       | search _ _ _ => PDict [(KStr (codes "tracks"), PList [sample_track])]
       | get_queue =>
           PDict [(KStr (codes "currently_playing"), sample_track);
                  (KStr (codes "queue"), PList [])]
       | get_info _ => sample_track
       | get_current_user_playlists => PList []
       | get_playlist_tracks _ => PList [sample_track]
       | _ => PNone
       end,
   S served).

Definition failing_adapter (e : exn) (c : call) (served : nat)
  : outcome pyval * nat :=
  (Raise e, S served).

Definition unauthorized : exn :=
  mkExn SpotifyException "http status: 401, code: -1 - The access token expired, reason: None".

Definition read_timeout : exn :=
  mkExn (OtherException "ReadTimeout")
        "HTTPSConnectionPool(host='api.spotify.com', port=443): Read timed out.".

Definition sample_str (o : pyval) : string :=
  match o with
  | PStr s => string_of_list_ascii (map ascii_of_N s)
  | _ => "<object>"
  end.

(** ** The JSON text of a list of track ids

    [ids_text L] is what [json.dumps(L)] writes for a list of [str]. *)
Fixpoint more_ids (l : list string) : string :=
  match l with
  | [] => ""
  | y :: l' => ", " ++ Json.encode_basestring_ascii (codes y) ++ more_ids l'
  end.

Definition ids_text (L : list string) : string :=
  match L with
  | [] => "[]"
  | x :: l => "[" ++ Json.encode_basestring_ascii (codes x) ++ more_ids l ++ "]"
  end.

(** What the scanner may do with a text of [n] characters: return a value
    and a shorter rest, or raise [JSONDecodeError]. *)
Definition decodes_or_rejects {A} (n : nat) (o : outcome (A * string)) : Prop :=
  match o with
  | Ret (_, r) => String.length r < n
  | Raise e => exn_type e = JSONDecodeError
  end.

(** A text [json.loads] rejects with a [JSONDecodeError]. *)
Definition invalid_json (s : string) : bool :=
  match Json.loads s with
  | Ret _ => false
  | Raise e => is_json_decode_error e
  end.

(** ** What a recorded adapter call gives back

    The methods whose result a tool returns as JSON, and the text a tool
    returns after each of the others. *)
Definition returns_json (c : call) : bool :=
  match c with
  | search _ _ _ | get_queue | get_info _ | get_current_user_playlists
  | get_playlist_tracks _ => true
  | _ => false
  end.

Definition status_text (c : call) : option string :=
  match c with
  | start_playback _ => Some "Playback starting."
  | pause_playback => Some "Playback paused."
  | skip_track _ => Some "Skipped to next track."
  | add_to_queue _ => Some "Track added to queue."
  | add_tracks_to_playlist _ _ => Some "Tracks added to playlist."
  | remove_tracks_from_playlist _ _ => Some "Tracks removed from playlist."
  | change_playlist_details _ _ _ => Some "Playlist details changed."
  | _ => None
  end.

(** [returning_adapter v] answers every call with [v]. *)
Definition returning_adapter (v : pyval) (c : call) (served : nat)
  : outcome pyval * nat :=
  (Ret v, S served).

(** ** The logger

    [Logger.info] and [Logger.error] of [setup_logger]: what one call prints
    on [sys.stderr], in front of the line end. *)
Definition Logger_print (entry : level * string) : string :=
  match fst entry with
  | INFO => "[INFO] " ++ snd entry
  | ERROR => "[ERROR] " ++ snd entry
  end.

Definition stderr (entries : list (level * string)) : list string :=
  map Logger_print entries.

Definition tagged_error (printed : string) : bool :=
  match after "[ERROR] " printed with
  | Some _ => true
  | None => false
  end.

(** * Properties *)

(** ** [json.loads] reads back what [json.dumps] writes for a list of
    track ids *)

Lemma append_assoc (a b c : string) : (a ++ b) ++ c = a ++ (b ++ c).
Proof. induction a as [|x a IH]; simpl; [reflexivity | now rewrite IH]. Qed.

Lemma scanstring_escape_char (c : ascii) (rest : string) (chunks : list N) :
  Json.scanstring (Json.escape_char (N_of_ascii c) ++ rest) chunks
  = Json.scanstring rest (chunks ++ [N_of_ascii c])%list.
Proof. destruct c as [[] [] [] [] [] [] [] []]; reflexivity. Qed.

Lemma scanstring_escape_body (s rest : string) (chunks : list N) :
  Json.scanstring (Json.escape_body (codes s) ++ String dquote rest) chunks
  = Ret ((chunks ++ codes s)%list, rest).
Proof.
  revert chunks; induction s as [|c s IH]; intros chunks.
  - cbn. now rewrite app_nil_r.
  - change (codes (String c s)) with (N_of_ascii c :: codes s).
    cbn [Json.escape_body]. rewrite append_assoc, scanstring_escape_char, IH.
    now rewrite <- app_assoc.
Qed.

Lemma dumps_ids (L : list string) :
  Json.dumps (ids_val L) None = Ret (ids_text L).
Proof.
  destruct L as [|x l]; [reflexivity|].
  unfold Json.dumps, ids_val. cbn [map Json.iterencode str_val obind].
  match goal with
  | |- obind ?R _ = _ =>
      assert (E : R = Ret (more_ids l))
  end.
  { induction l as [|y l IH]; [reflexivity|].
    cbn [map str_val obind Json.iterencode]. rewrite IH. reflexivity. }
  rewrite E. reflexivity.
Qed.

Lemma encoded_then (x rest : string) :
  Json.encode_basestring_ascii (codes x) ++ rest
  = String dquote (Json.escape_body (codes x) ++ String dquote rest).
Proof.
  unfold Json.encode_basestring_ascii, chr. cbn [append].
  now rewrite append_assoc.
Qed.

Lemma scan_once_encoded (fuel : nat) (x rest : string) :
  Json.scan_once (S fuel) (Json.encode_basestring_ascii (codes x) ++ rest)
  = Ret (str_val x, rest).
Proof.
  rewrite encoded_then. cbn [Json.scan_once].
  change (Ascii.eqb dquote dquote) with true. cbv iota.
  rewrite scanstring_escape_body. reflexivity.
Qed.

Lemma skip_whitespace_encoded (x rest : string) :
  Json.skip_whitespace (Json.encode_basestring_ascii (codes x) ++ rest)
  = Json.encode_basestring_ascii (codes x) ++ rest.
Proof. rewrite encoded_then. reflexivity. Qed.

Lemma array_items_step (fuel : nat) (s : string) (values : list pyval) :
  Json.array_items (S fuel) s values
  = obind (Json.scan_once fuel s) (fun '(value, r) =>
      match Json.skip_whitespace r with
      | String nextchar r' =>
          if Ascii.eqb nextchar "]"
          then Ret (PList (values ++ [value])%list, r')
          else if Ascii.eqb nextchar ","
          then Json.array_items fuel (Json.skip_whitespace r')
                 (values ++ [value])%list
          else Raise (Json.decode_error "Expecting ',' delimiter")
      | EmptyString => Raise (Json.decode_error "Expecting ',' delimiter")
      end).
Proof. reflexivity. Qed.

Lemma array_items_ids (l : list string) :
  forall (x : string) (fuel : nat) (values : list pyval) (rest : string),
    length l + 2 <= fuel ->
    Json.array_items fuel
      (Json.encode_basestring_ascii (codes x) ++ more_ids l ++ String "]" rest)
      values
    = Ret (PList (values ++ map str_val (x :: l))%list, rest).
Proof.
  induction l as [|y l IH]; intros x fuel values rest Hfuel;
    (destruct fuel as [|fuel]; [simpl in Hfuel; lia|]);
    (destruct fuel as [|fuel']; [simpl in Hfuel; lia|]);
    rewrite array_items_step, scan_once_encoded; cbn [obind more_ids].
  - reflexivity.
  - change ((", " ++ Json.encode_basestring_ascii (codes y) ++ more_ids l)
              ++ String "]" rest)
      with (String "," (String " "
              ((Json.encode_basestring_ascii (codes y) ++ more_ids l)
                 ++ String "]" rest))).
    rewrite append_assoc.
    change (Json.skip_whitespace (String "," ?r)) with (String "," r).
    cbv iota.
    change (Ascii.eqb "," "]") with false.
    change (Ascii.eqb "," ",") with true. cbv iota.
    change (Json.skip_whitespace (String " " ?r)) with (Json.skip_whitespace r).
    rewrite skip_whitespace_encoded.
    rewrite IH by (simpl in Hfuel |- *; lia).
    now rewrite <- app_assoc.
Qed.

Lemma length_append (a b : string) :
  String.length (a ++ b) = String.length a + String.length b.
Proof. induction a as [|c a IH]; simpl; [reflexivity | now rewrite IH]. Qed.

Lemma length_more_ids (l : list string) : length l <= String.length (more_ids l).
Proof.
  induction l as [|y l IH]; [apply le_n|].
  cbn [more_ids length]. rewrite !length_append. simpl. lia.
Qed.

(** [json.loads(json.dumps(L)) == L] for every list of track ids. *)
Lemma loads_ids_text (L : list string) :
  Json.loads (ids_text L) = Ret (ids_val L).
Proof.
  destruct L as [|x l]; [reflexivity|].
  unfold Json.loads.
  assert (Hlen : length l + 2 <= 2 * String.length (ids_text (x :: l)) + 1).
  { unfold ids_text. rewrite !length_append. pose proof (length_more_ids l).
    simpl. lia. }
  replace (2 * String.length (ids_text (x :: l)) + 2)
    with (S (2 * String.length (ids_text (x :: l)) + 1)) by lia.
  remember (2 * String.length (ids_text (x :: l)) + 1) as fuel.
  unfold ids_text.
  change ("[" ++ ?r) with (String "[" r).
  change (Json.skip_whitespace (String "[" ?r)) with (String "[" r).
  change (more_ids l ++ "]") with (more_ids l ++ String "]" "").
  cbn [Json.scan_once].
  change (Ascii.eqb "[" dquote) with false.
  change (Ascii.eqb "[" "{") with false.
  change (Ascii.eqb "[" "[") with true. cbv iota.
  rewrite skip_whitespace_encoded. cbv zeta.
  rewrite array_items_ids by exact Hlen.
  rewrite encoded_then. reflexivity.
Qed.

(** ** [json.loads] never runs out of fuel *)

Section Scanner.

Import Json.

Lemma skip_whitespace_length (s : string) :
  String.length (skip_whitespace s) <= String.length s.
Proof.
  induction s as [|c s IH]; cbn [skip_whitespace]; [apply le_n|].
  destruct (is_whitespace c); cbn [String.length]; lia.
Qed.

Lemma after_length (p s r : string) :
  after p s = Some r -> String.length s = String.length p + String.length r.
Proof.
  revert s; induction p as [|a p IH]; intros s; cbn [after].
  - now intros [= ->].
  - destruct s as [|b s]; [discriminate|].
    destruct (Ascii.eqb a b); [|discriminate].
    intros H. apply IH in H. cbn [String.length]. lia.
Qed.

Lemma scanstring_decodes_or_rejects (n : nat) :
  forall (s : string) (chunks : list N),
    String.length s <= n ->
    decodes_or_rejects (String.length s) (scanstring s chunks).
Proof.
  induction n as [|n IH]; intros s chunks Hn.
  - destruct s; [reflexivity | cbn [String.length] in Hn; lia].
  - destruct s as [|c s1]; [reflexivity|].
    cbn [String.length] in Hn.
    assert (Hrec : forall s' chunks', String.length s' <= String.length s1 ->
              decodes_or_rejects (String.length (String c s1)) (scanstring s' chunks')).
    { intros s' chunks' Hs'. specialize (IH s' chunks' ltac:(lia)).
      unfold decodes_or_rejects in *. destruct (scanstring s' chunks') as [[? r]|e];
        [cbn [String.length]; lia | exact IH]. }
    cbn [scanstring].
    repeat match goal with
    | |- decodes_or_rejects _ (Raise _) => reflexivity
    | |- decodes_or_rejects _ (Ret _) => cbn [decodes_or_rejects String.length]; lia
    | |- decodes_or_rejects _ (scanstring _ _) =>
        apply Hrec; cbn [String.length]; lia
    | |- decodes_or_rejects _ (if ?b then _ else _) => destruct b
    | |- decodes_or_rejects _ (match ?x with _ => _ end) => destruct x
    end.
Qed.

Lemma span_digits_length (s : string) :
  String.length (snd (span_digits s)) <= String.length s.
Proof.
  induction s as [|c s IH]; cbn [span_digits]; [apply le_n|].
  destruct (is_digit c); [|apply le_n].
  destruct (span_digits s) as [ds r]. cbn [snd String.length] in *. lia.
Qed.

Lemma match_frac_length (s : string) :
  String.length (snd (match_frac s)) <= String.length s.
Proof.
  destruct s as [|c s]; cbn [match_frac]; [apply le_n|].
  destruct (Ascii.eqb c "."); [|apply le_n].
  pose proof (span_digits_length s) as H.
  destruct (span_digits s) as [[|d ds] r]; cbn [snd String.length] in *; lia.
Qed.

Lemma match_exp_length (s : string) :
  String.length (snd (match_exp s)) <= String.length s.
Proof.
  destruct s as [|e s]; cbn [match_exp]; [apply le_n|].
  destruct (Ascii.eqb e "e" || Ascii.eqb e "E"); [|apply le_n].
  destruct s as [|g t].
  - reflexivity.
  - destruct (Ascii.eqb g "-" || Ascii.eqb g "+").
    + pose proof (span_digits_length t) as H.
      destruct (span_digits t) as [[|d ds] r]; cbn [snd String.length] in *; lia.
    + pose proof (span_digits_length (String g t)) as H.
      destruct (span_digits (String g t)) as [[|d ds] r];
        cbn [snd String.length] in *; lia.
Qed.

Lemma match_integer_length (s integer r : string) :
  match_integer s = Some (integer, r) -> String.length r < String.length s.
Proof.
  unfold match_integer.
  assert (Hdigits : forall s' sign, String.length s' <= String.length s ->
            match s' with
            | String c t =>
                if Ascii.eqb c "0" then Some (sign ++ "0", t)
                else if is_digit c
                then let (ds, r) := span_digits t in Some (sign ++ String c ds, r)
                else None
            | EmptyString => None
            end = Some (integer, r) -> String.length r < String.length s).
  { intros [|c t] sign Hs'; [discriminate|]. cbn [String.length] in Hs'.
    destruct (Ascii.eqb c "0"); [intros [= _ <-]; lia|].
    destruct (is_digit c); [|discriminate].
    pose proof (span_digits_length t) as H.
    destruct (span_digits t) as [ds r']. cbn [snd] in H.
    intros [= _ <-]. lia. }
  destruct s as [|c t]; [discriminate|].
  destruct (Ascii.eqb c "-"); intros H;
    [apply (Hdigits t "-") | apply (Hdigits (String c t) "")];
    solve [exact H | cbn [String.length]; lia].
Qed.

Lemma match_number_length (s : string) (res : pyval * string) :
  match_number s = Some res -> String.length (snd res) < String.length s.
Proof.
  unfold match_number.
  destruct (match_integer s) as [[integer r1]|] eqn:Hint; [|discriminate].
  apply match_integer_length in Hint.
  pose proof (match_frac_length r1) as Hfrac.
  destruct (match_frac r1) as [frac r2]. cbn [snd] in Hfrac.
  pose proof (match_exp_length r2) as Hexp.
  destruct (match_exp r2) as [exp r3]. cbn [snd] in Hexp.
  destruct frac, exp; intros [= <-]; cbn [snd]; lia.
Qed.

(** With fuel for twice the length of the text the scanner never runs out
    of it: it returns a value and a shorter rest, or rejects the text. *)
Lemma scanner_decodes_or_rejects (fuel : nat) :
  (forall s, 2 * String.length s + 1 <= fuel ->
     decodes_or_rejects (String.length s) (scan_once fuel s))
  /\ (forall s values, 2 * String.length s + 2 <= fuel ->
        decodes_or_rejects (String.length s) (array_items fuel s values))
  /\ (forall s pairs, 2 * String.length s + 2 <= fuel ->
        decodes_or_rejects (String.length s) (object_items fuel s pairs)).
Proof.
  induction fuel as [|fuel (IHscan & IHarray & IHobject)];
    [repeat split; intros; lia|].
  repeat split.
  - intros s Hfuel. destruct s as [|nextchar s1]; [reflexivity|].
    cbn [scan_once]. cbn [String.length] in Hfuel |- *.
    destruct (Ascii.eqb nextchar dquote).
    { pose proof (scanstring_decodes_or_rejects _ s1 [] (le_n _)) as H.
      destruct (scanstring s1 []) as [[str r]|e]; cbn [obind decodes_or_rejects] in *;
        [lia | exact H]. }
    destruct (Ascii.eqb nextchar "{").
    { pose proof (skip_whitespace_length s1) as Hws.
      destruct (skip_whitespace s1) as [|c r]; [reflexivity|].
      cbn [String.length] in Hws.
      destruct (Ascii.eqb c "}"); [cbn [decodes_or_rejects]; lia|].
      destruct (Ascii.eqb c dquote); [|reflexivity].
      specialize (IHobject r [] ltac:(lia)).
      destruct (object_items fuel r []) as [[v r']|e];
        cbn [decodes_or_rejects] in *; [lia | exact IHobject]. }
    destruct (Ascii.eqb nextchar "[").
    { pose proof (skip_whitespace_length s1) as Hws. cbv zeta.
      specialize (IHarray (skip_whitespace s1) [] ltac:(lia)).
      assert (Harray : decodes_or_rejects (S (String.length s1))
                         (array_items fuel (skip_whitespace s1) [])).
      { destruct (array_items fuel (skip_whitespace s1) []) as [[v r']|e];
          cbn [decodes_or_rejects] in *; [lia | exact IHarray]. }
      destruct (skip_whitespace s1) as [|c r]; [exact Harray|].
      cbn [String.length] in Hws.
      destruct (Ascii.eqb c "]"); [cbn [decodes_or_rejects]; lia | exact Harray]. }
    repeat match goal with
    | |- decodes_or_rejects _ (Raise _) => reflexivity
    | |- decodes_or_rejects _ (match after ?p ?s with _ => _ end) =>
        let E := fresh "E" in
        destruct (after p s) eqn:E;
        [apply after_length in E; cbn [String.length] in E |]
    | |- decodes_or_rejects _ (Ret (_, _)) => cbn [decodes_or_rejects]; lia
    | |- decodes_or_rejects _ (match match_number ?s with _ => _ end) =>
        let E := fresh "E" in
        destruct (match_number s) as [[? ?]|] eqn:E;
        [apply match_number_length in E; cbn [snd String.length] in E |]
    end.
  - intros s values Hfuel. cbn [array_items].
    specialize (IHscan s ltac:(lia)).
    destruct (scan_once fuel s) as [[value r]|e]; cbn [obind decodes_or_rejects] in *;
      [|exact IHscan].
    pose proof (skip_whitespace_length r) as Hws.
    destruct (skip_whitespace r) as [|nextchar r']; [reflexivity|].
    cbn [String.length] in Hws.
    destruct (Ascii.eqb nextchar "]"); [cbn [decodes_or_rejects]; lia|].
    destruct (Ascii.eqb nextchar ","); [|reflexivity].
    pose proof (skip_whitespace_length r') as Hws'.
    specialize (IHarray (skip_whitespace r') (values ++ [value])%list ltac:(lia)).
    destruct (array_items fuel (skip_whitespace r') (values ++ [value])%list)
      as [[v r'']|e]; cbn [decodes_or_rejects] in *; [lia | exact IHarray].
  - intros s pairs Hfuel. cbn [object_items].
    pose proof (scanstring_decodes_or_rejects _ s [] (le_n _)) as Hkey.
    destruct (scanstring s []) as [[key r]|e]; cbn [obind decodes_or_rejects] in *;
      [|exact Hkey].
    pose proof (skip_whitespace_length r) as Hws.
    destruct (skip_whitespace r) as [|colon r1]; [reflexivity|].
    cbn [String.length] in Hws.
    destruct (Ascii.eqb colon ":"); cbn [negb]; [|reflexivity].
    pose proof (skip_whitespace_length r1) as Hws1.
    specialize (IHscan (skip_whitespace r1) ltac:(lia)).
    destruct (scan_once fuel (skip_whitespace r1)) as [[value r2]|e];
      cbn [obind decodes_or_rejects] in *; [|exact IHscan].
    cbv zeta.
    pose proof (skip_whitespace_length r2) as Hws2.
    destruct (skip_whitespace r2) as [|nextchar r3]; [reflexivity|].
    cbn [String.length] in Hws2.
    destruct (Ascii.eqb nextchar "}"); [cbn [decodes_or_rejects]; lia|].
    destruct (Ascii.eqb nextchar ","); [|reflexivity].
    pose proof (skip_whitespace_length r3) as Hws3.
    destruct (skip_whitespace r3) as [|c r4]; [reflexivity|].
    cbn [String.length] in Hws3.
    destruct (Ascii.eqb c dquote); [|reflexivity].
    specialize (IHobject r4 (dict_store pairs key value) ltac:(lia)).
    destruct (object_items fuel r4 (dict_store pairs key value)) as [[v r']|e];
      cbn [decodes_or_rejects] in *; [lia | exact IHobject].
Qed.

(** [json.loads] returns a value or raises [JSONDecodeError]. *)
Lemma loads_raises_decode_errors_only (s : string) (e : exn) :
  loads s = Raise e -> exn_type e = JSONDecodeError.
Proof.
  unfold loads.
  pose proof (skip_whitespace_length s) as Hws.
  destruct (scanner_decodes_or_rejects (2 * String.length s + 2)) as (Hscan & _ & _).
  specialize (Hscan (skip_whitespace s) ltac:(lia)).
  destruct (scan_once (2 * String.length s + 2) (skip_whitespace s)) as [[obj r]|e'];
    cbn [obind decodes_or_rejects] in *.
  - destruct (skip_whitespace r); [discriminate|]. now intros [= <-].
  - now intros [= <-].
Qed.

(** A text is rejected exactly when [json.loads] returns no value for it. *)
Lemma invalid_json_iff (s : string) :
  invalid_json s = true <-> forall obj, loads s <> Ret obj.
Proof.
  unfold invalid_json. split.
  - intros H obj Hobj. rewrite Hobj in H. discriminate.
  - intros H. destruct (loads s) as [obj|e] eqn:E; [now destruct (H obj)|].
    apply loads_raises_decode_errors_only in E.
    unfold is_json_decode_error. now rewrite E.
Qed.

End Scanner.

(** ** What [json.dumps], [json.loads] and [get] raise *)

(** [json.dumps] raises nothing but [TypeError]. *)
Lemma encode_key_raises_type_error (k : pykey) (e : exn) :
  Json.encode_key k = Raise e -> exn_type e = OtherException "TypeError".
Proof. destruct k as [| | |[]| |]; cbn; try discriminate. now intros [= <-]. Qed.

Lemma iterencode_raises_type_error :
  forall (o : pyval) (indent : option nat) (level : nat) (e : exn),
    Json.iterencode indent level o = Raise e ->
    exn_type e = OtherException "TypeError".
Proof.
  fix IH 1. intros o indent level e.
  destruct o as [|[]| | | |l|d|t]; cbn [Json.iterencode]; try discriminate.
  - destruct l as [|v l]; [discriminate|].
    destruct (Json.iterencode indent (S level) v) as [first|e1] eqn:E1;
      cbn [obind]; [|intros [= <-]; exact (IH _ _ _ _ E1)].
    match goal with
    | |- obind ?R _ = _ -> _ =>
        assert (Hrest : forall e', R = Raise e' ->
                  exn_type e' = OtherException "TypeError")
    end.
    { clear E1 first. induction l as [|x l IHl]; [discriminate|].
      intros e'.
      destruct (Json.iterencode indent (S level) x) as [a|e2] eqn:E2;
        cbn [obind]; [|intros [= <-]; exact (IH _ _ _ _ E2)].
      match goal with
      | |- obind ?R _ = _ -> _ => destruct R as [xs|e3] eqn:E3
      end; cbn [obind]; [discriminate|].
      intros [= <-]. apply IHl. reflexivity. }
    match goal with
    | |- obind ?R _ = _ -> _ => destruct R as [xs|e3] eqn:E3
    end; cbn [obind]; [discriminate|].
    intros [= <-]. apply Hrest. reflexivity.
  - destruct d as [|[k v] d]; [discriminate|].
    destruct (Json.encode_key k) as [key|e0] eqn:E0; cbn [obind];
      [|intros [= <-]; exact (encode_key_raises_type_error _ _ E0)].
    destruct (Json.iterencode indent (S level) v) as [first|e1] eqn:E1;
      cbn [obind]; [|intros [= <-]; exact (IH _ _ _ _ E1)].
    match goal with
    | |- obind ?R _ = _ -> _ =>
        assert (Hrest : forall e', R = Raise e' ->
                  exn_type e' = OtherException "TypeError")
    end.
    { clear E0 E1 key first. induction d as [|[k' x] d IHd]; [discriminate|].
      intros e'.
      destruct (Json.encode_key k') as [key|e0] eqn:E0; cbn [obind];
        [|intros [= <-]; exact (encode_key_raises_type_error _ _ E0)].
      destruct (Json.iterencode indent (S level) x) as [a|e2] eqn:E2;
        cbn [obind]; [|intros [= <-]; exact (IH _ _ _ _ E2)].
      match goal with
      | |- obind ?R _ = _ -> _ => destruct R as [xs|e3] eqn:E3
      end; cbn [obind]; [discriminate|].
      intros [= <-]. apply IHd. reflexivity. }
    match goal with
    | |- obind ?R _ = _ -> _ => destruct R as [xs|e3] eqn:E3
    end; cbn [obind]; [discriminate|].
    intros [= <-]. apply Hrest. reflexivity.
  - now intros [= <-].
Qed.

Lemma dumps_raises_type_error (obj : pyval) (indent : option nat) (e : exn) :
  Json.dumps obj indent = Raise e -> is_spotify_exception e = false.
Proof.
  intros H. apply iterencode_raises_type_error in H.
  unfold is_spotify_exception. now rewrite H.
Qed.


(** A missing [get] method is an [AttributeError]. *)
Lemma get_method_raises_attribute_error (o : pyval) (key : string)
      (default : pyval) (e : exn) :
  get_method o key default = Raise e -> is_spotify_exception e = false.
Proof. destruct o; cbn; try discriminate; now intros [= <-]. Qed.

(** What [json.loads] raises is caught by [except json.JSONDecodeError]. *)
Lemma loads_rejects (s : string) (e : exn) :
  Json.loads s = Raise e -> is_json_decode_error e = true.
Proof.
  intros H. apply loads_raises_decode_errors_only in H.
  unfold is_json_decode_error. now rewrite H.
Qed.

(** ** The router *)

Section Properties.

Variable World : Type.
Variable adapter : call -> World -> outcome pyval * World.
Variable py_str : pyval -> string.

(** Unfolding the monad and the tool functions down to the adapter and the
    [json] calls. *)
Ltac run :=
  cbv beta iota zeta delta
    [call_tool SpotifyPlayback SpotifySearch SpotifyQueue SpotifyGetInfo
     SpotifyPlaylist parse_track_ids error_mapping try_except bind ret lift
     logger_info logger_error spotify_client find is_exception];
  cbn [String.eqb Ascii.eqb Bool.eqb fst snd world calls log].

(** Case analysis on what the adapter answers. *)
Ltac answer :=
  match goal with
  | |- context [adapter ?c ?w] =>
      let o := fresh "o" in
      let w' := fresh "w" in
      let E := fresh "Hadapter" in
      destruct (adapter c w) as [o w'] eqn:E; destruct o;
      cbn [fst snd world calls log]
  end.

(** Case analysis on the [except] clause that handles an exception. *)
Ltac handle :=
  match goal with
  | |- context [is_spotify_exception ?e] =>
      let E := fresh "Hclass" in
      destruct (is_spotify_exception e) eqn:E;
      cbn [fst snd world calls log]
  end.

(** The two [except] clauses turn whatever the body raises into a returned
    text. *)
Lemma error_mapping_returns (body : state World -> outcome string * state World)
      (st : state World) :
  exists text st', try_except body error_mapping st = (Ret text, st').
Proof.
  unfold try_except. destruct (body st) as [[text|e] st']; [eauto|].
  unfold error_mapping, find, fst, snd.
  destruct (is_spotify_exception e); cbv; eauto.
Qed.


(** C4: the queue tool's [add] without a track id returns the
    required-parameter text and makes no adapter call. *)
Theorem queue_add_requires_track_id (st : state World) :
  let out := SpotifyQueue adapter "add" None st in
  fst out = Ret "track_id is required for add action"
  /\ calls (snd out) = calls st
  /\ world (snd out) = world st.
Proof. repeat split. Qed.

(** An action outside the matched names fails every comparison. *)
Ltac unknown H :=
  repeat match goal with
  | |- context [String.eqb ?a ?b] =>
      destruct (String.eqb_spec a b);
      [exfalso; apply H; subst; simpl; tauto|]
  end.


(** C7: [change_details] with a playlist id and neither a name nor a
    description returns the required-field text and does not call the
    adapter. *)
Theorem change_details_requires_a_field
        (playlist_id : string) (track_ids : option track_ids_t)
        (st : state World) :
  playlist_id <> "" ->
  let out := SpotifyPlaylist adapter "change_details" (Some playlist_id)
                             track_ids None None st in
  fst out = Ret "At least one of name or description is required."
  /\ calls (snd out) = calls st
  /\ world (snd out) = world st.
Proof.
  intros Hid. destruct playlist_id as [|c p]; [contradiction|].
  repeat split.
Qed.

(** C9: an empty list of track ids counts as missing for [add_tracks] and
    [remove_tracks]: the required-parameter text is returned and the adapter
    is not called, whatever the playlist id. *)
Theorem empty_track_ids_count_as_missing
        (playlist_id name description : option string) (st : state World) :
  let added := SpotifyPlaylist adapter "add_tracks" playlist_id
                               (Some (IdsList [])) name description st in
  let removed := SpotifyPlaylist adapter "remove_tracks" playlist_id
                                 (Some (IdsList [])) name description st in
  (fst added
   = Ret "playlist_id and track_ids are required for add_tracks action."
   /\ calls (snd added) = calls st /\ world (snd added) = world st)
  /\ (fst removed
      = Ret "playlist_id and track_ids are required for remove_tracks action."
      /\ calls (snd removed) = calls st /\ world (snd removed) = world st).
Proof.
  destruct playlist_id as [[|c p]|]; repeat split.
Qed.



(** What the error level of the log gains from one logged line. *)
Lemma errors_logged (w : World) (cs : list (call * outcome pyval))
      (l : list (level * string)) (entry : level * string) :
  errors (mkState w cs (l ++ [entry]))
  = (filter is_error l ++ (if is_error entry then [entry] else []))%list.
Proof. unfold errors. cbn [log]. now rewrite filter_app. Qed.

(** Case analysis on everything a tool function branches on. *)
Ltac branch :=
  match goal with
  | |- context [String.eqb ?a ?b] => destruct (String.eqb a b)
  | |- context [truthy_str ?x] => destruct (truthy_str x)
  | |- context [truthy_ids ?x] => destruct (truthy_ids x) as [[?|?]|]
  | |- context [truthy ?v] => destruct (truthy v)
  | |- context [get_method ?o ?k ?d] => destruct (get_method o k d)
  | |- context [Json.dumps ?v ?i] => destruct (Json.dumps v i)
  | |- context [Json.loads ?s] => destruct (Json.loads s)
  | |- context [is_json_decode_error ?e] => destruct (is_json_decode_error e)
  | _ => answer
  | _ => handle
  end; cbn [fst snd world calls log].


(** [add_tracks] with a text that [json.loads] reads as the list [L] does
    what [add_tracks] with [L] itself does. *)
Lemma add_tracks_decoded
      (playlist_id : option string) (L : list string) (s : string)
      (name description : option string) (st : state World) :
  L <> [] ->
  Json.loads s = Ret (ids_val L) ->
  SpotifyPlaylist adapter "add_tracks" playlist_id (Some (IdsStr s))
                  name description st
  = SpotifyPlaylist adapter "add_tracks" playlist_id (Some (IdsList L))
                    name description st.
Proof.
  intros HL Hs. destruct L as [|x l]; [contradiction|].
  destruct s as [|a s]; [discriminate Hs|].
  run. cbn [truthy_ids]. rewrite Hs.
  destruct (truthy_str playlist_id); reflexivity.
Qed.




(** X2: a tool call makes at most one adapter call: either it records no
    call and leaves the world as it was, or it records one call and leaves
    the world that call left. *)
Theorem at_most_one_adapter_call (r : request) (st : state World) :
  let out := call_tool adapter py_str r st in
  (calls (snd out) = calls st /\ world (snd out) = world st)
  \/ exists c,
       calls (snd out) = (calls st ++ [(c, fst (adapter c (world st)))])%list
       /\ world (snd out) = snd (adapter c (world st)).
Proof.
  cbv zeta. destruct r; run;
    repeat match goal with
    | |- context [adapter ?c ?w] => fail 1
    | _ => branch
    end;
    try (left; split; reflexivity);
    match goal with
    | |- context [adapter ?c (world st)] =>
        right; exists c; destruct (adapter c (world st)) as [[v|e] w];
        cbn [fst snd world calls log]; repeat branch; split; reflexivity
    end.
Qed.

(** X3: a tool call logs at most one line at error level. *)
Theorem at_most_one_error_line (r : request) (st : state World) :
  let out := call_tool adapter py_str r st in
  errors (snd out) = errors st
  \/ exists message, errors (snd out) = (errors st ++ [(ERROR, message)])%list.
Proof.
  cbv zeta. destruct r; run; repeat branch; unfold errors; cbn [log];
    rewrite ?filter_app; cbn [filter is_error fst]; rewrite ?app_nil_r;
    first [left; reflexivity | right; eexists; reflexivity].
Qed.

(** Case analysis on a tool function up to the adapter's answer, leaving
    the serialisation of the answer alone. *)
Ltac dispatch :=
  match goal with
  | |- context [String.eqb ?a ?b] => destruct (String.eqb a b)
  | |- context [truthy_str ?x] => destruct (truthy_str x)
  | |- context [truthy_ids ?x] => destruct (truthy_ids x) as [[?|?]|]
  | |- context [truthy ?v] => destruct (truthy v)
  | |- context [get_method ?o ?k ?d] =>
      let E := fresh "Hget" in
      destruct (get_method o k d) eqn:E;
      [|rewrite (get_method_raises_attribute_error _ _ _ _ E)]
  | |- context [Json.loads ?s] =>
      let E := fresh "Hloads" in
      destruct (Json.loads s) eqn:E; [|rewrite (loads_rejects _ _ E)]
  | _ => answer
  | _ => handle
  end; cbn [fst snd world calls log].

(** Case analysis on the serialisation of the adapter's answer; an
    exception of [json.dumps] falls to the second [except] clause. *)
Ltac serialise v :=
  match goal with
  | |- context [Json.dumps ?x (Some 2)] =>
      assert_fails (constr_eq x v);
      let E := fresh "Hdumps" in
      destruct (Json.dumps x (Some 2)) eqn:E;
      [|rewrite (dumps_raises_type_error _ _ _ E)];
      cbn [fst snd world calls log]
  end.

(** What a hypothesis on the recorded calls says once the call is run. *)
Ltac recorded H :=
  first
    [ apply (f_equal (@length _)) in H; rewrite length_app in H;
      cbn [length] in H; lia
    | apply app_inv_head in H; first [discriminate H | injection H as <- <-] ].

Ltac logged :=
  unfold errors; cbn [fst snd world calls log]; rewrite ?filter_app;
  cbn [filter is_error fst]; rewrite ?app_nil_r.


(** X6: when one of the seven adapter methods that change playback, queue
    or playlists returns, the tool returns the fixed text of that method,
    whatever the method returned, and logs no error. *)
Theorem status_result
        (r : request) (st : state World) (c : call) (v : pyval) (text : string) :
  let out := call_tool adapter py_str r st in
  calls (snd out) = (calls st ++ [(c, Ret v)])%list ->
  status_text c = Some text ->
  fst out = Ret text /\ errors (snd out) = errors st.
Proof.
  cbv zeta. destruct r; run; repeat branch; intros H Hstatus; recorded H;
    try discriminate Hstatus; injection Hstatus as <-;
    (split; [reflexivity|]); logged; reflexivity.
Qed.


Ltac logged_in H :=
  unfold errors in H; cbn [log] in H; rewrite ?filter_app in H;
  cbn [filter is_error fst] in H; rewrite ?app_nil_r in H.

(** X4: the vendor error is reported only for the vendor: when a call logs
    "Spotify Client error occurred: <message>", its adapter call raised a
    [SpotifyException] with that message and the text returned is "An error
    occurred with the Spotify Client: <message>".  What [json] or a missing
    [get] raises never counts as a vendor error. *)
Theorem vendor_error_line_means_adapter_raised
        (r : request) (st : state World) (message : string) :
  let out := call_tool adapter py_str r st in
  errors (snd out)
  = (errors st
       ++ [(ERROR, ("Spotify Client error occurred: " ++ message)%string)])%list ->
  exists c e,
    calls (snd out) = (calls st ++ [(c, Raise e)])%list
    /\ exn_type e = SpotifyException
    /\ exn_str e = message
    /\ fst out = Ret ("An error occurred with the Spotify Client: " ++ message).
Proof.
  cbv zeta. destruct r; run; repeat dispatch; try serialise PNone;
    intros H; logged_in H;
    try (apply (f_equal (@length _)) in H; rewrite length_app in H;
         cbn [length] in H; lia);
    apply app_inv_head in H; cbn [append] in H; try discriminate H;
    injection H as <-;
    (do 2 eexists; split; [reflexivity|]);
    (split; [unfold is_spotify_exception in Hclass;
             destruct (exn_type e); [reflexivity | discriminate ..]|]);
    split; reflexivity.
Qed.





(** X10: [add] of the queue tool takes an empty track id as a missing one:
    the required-parameter text, one error line and no adapter call; any
    other track id is handed to [add_to_queue] as given. *)
Theorem queue_add_needs_nonempty_track_id
        (track_id : option string) (st : state World) :
  let out := SpotifyQueue adapter "add" track_id st in
  ((track_id = None \/ track_id = Some "") ->
     fst out = Ret "track_id is required for add action"
     /\ calls (snd out) = calls st
     /\ world (snd out) = world st
     /\ errors (snd out)
        = (errors st ++ [(ERROR, "track_id is required for add to queue.")])%list)
  /\ (forall t, track_id = Some t -> t <> "" ->
        calls (snd out)
        = (calls st ++ [(add_to_queue t,
                         fst (adapter (add_to_queue t) (world st)))])%list).
Proof.
  cbv zeta. split.
  - intros [-> | ->]; repeat split; run; cbn [truthy_str]; logged; reflexivity.
  - intros t -> Ht. destruct t as [|a t]; [contradiction|].
    run. cbn [truthy_str fst snd world calls log].
    answer; repeat branch; reflexivity.
Qed.

(** X11: without a playlist id ([None] or empty) the four playlist actions
    that need one return their own required-parameter text and make no
    adapter call, whatever the other parameters (track ids that do not
    parse included); only [get_tracks] logs an error line for it. *)
Theorem missing_playlist_id_is_reported_first
        (playlist_id : option string) (track_ids : option track_ids_t)
        (name description : option string) (st : state World) :
  playlist_id = None \/ playlist_id = Some "" ->
  let run action :=
    SpotifyPlaylist adapter action playlist_id track_ids name description st in
  let untouched out := calls (snd out) = calls st /\ world (snd out) = world st in
  (fst (run "get_tracks") = Ret "playlist_id is required for get_tracks action."
   /\ untouched (run "get_tracks")
   /\ errors (snd (run "get_tracks"))
      = (errors st
           ++ [(ERROR, "playlist_id is required for get_tracks action.")])%list)
  /\ (fst (run "add_tracks")
      = Ret "playlist_id and track_ids are required for add_tracks action."
      /\ untouched (run "add_tracks")
      /\ errors (snd (run "add_tracks")) = errors st)
  /\ (fst (run "remove_tracks")
      = Ret "playlist_id and track_ids are required for remove_tracks action."
      /\ untouched (run "remove_tracks")
      /\ errors (snd (run "remove_tracks")) = errors st)
  /\ (fst (run "change_details")
      = Ret "playlist_id is required for change_details action."
      /\ untouched (run "change_details")
      /\ errors (snd (run "change_details")) = errors st).
Proof.
  intros [-> | ->]; cbv zeta; repeat split; run; cbn [truthy_str];
    logged; reflexivity.
Qed.



(** X14: with a playlist id, [change_details] takes an empty name or
    description as a missing one: when both are missing the required-field
    text is returned and the adapter is not called; when one is given the
    adapter gets both as they came. *)
Theorem change_details_needs_a_nonempty_field
        (playlist_id : string) (track_ids : option track_ids_t)
        (name description : option string) (st : state World) :
  playlist_id <> "" ->
  let out := SpotifyPlaylist adapter "change_details" (Some playlist_id)
               track_ids name description st in
  let given (field : option string) := exists text, field = Some text /\ text <> "" in
  ((name = None \/ name = Some "") ->
   (description = None \/ description = Some "") ->
     fst out = Ret "At least one of name or description is required."
     /\ calls (snd out) = calls st /\ world (snd out) = world st)
  /\ (given name \/ given description ->
        calls (snd out)
        = (calls st
             ++ [(change_playlist_details playlist_id name description,
                  fst (adapter (change_playlist_details playlist_id name description)
                               (world st)))])%list).
Proof.
  intros Hid. destruct playlist_id as [|c p]; [contradiction|].
  cbv zeta. split.
  - intros [-> | ->] [-> | ->]; repeat split.
  - intros Hgiven. run. cbn [truthy_str fst snd world calls log].
    assert (Hfield : match truthy_str name, truthy_str description with
                     | None, None => False
                     | _, _ => True
                     end).
    { destruct Hgiven as [(text & -> & Ht) | (text & -> & Ht)];
        (destruct text; [contradiction|]); cbn [truthy_str];
        [|destruct (truthy_str name)]; exact I. }
    destruct (truthy_str name), (truthy_str description);
      try contradiction; cbn [fst snd world calls log];
      answer; repeat branch; reflexivity.
Qed.


End Properties.

(** X15: the lines a call prints with the [ERROR] tag are those of
    [logger.error], whatever the messages hold. *)
Theorem stderr_error_tags (entries : list (level * string)) :
  filter tagged_error (stderr entries) = stderr (filter is_error entries).
Proof.
  unfold stderr. induction entries as [|[[] message] entries IH];
    cbn [map filter is_error fst]; [reflexivity | exact IH |].
  cbn [map]. rewrite <- IH. reflexivity.
Qed.

(** ** The theorems at concrete calls *)


(** C7 at a playlist id, with no name and no description. *)
Lemma change_details_requires_a_field_witness :
  "37i9dQZF1DXcBWIGoYBM5M" <> ""
  /\ fst (SpotifyPlaylist sample_adapter "change_details"
            (Some "37i9dQZF1DXcBWIGoYBM5M") None None None (init 0))
     = Ret "At least one of name or description is required."
  /\ calls (snd (SpotifyPlaylist sample_adapter "change_details"
                   (Some "37i9dQZF1DXcBWIGoYBM5M") None None None (init 0)))
     = [].
Proof.
  assert (Hid : "37i9dQZF1DXcBWIGoYBM5M" <> "") by discriminate.
  destruct (change_details_requires_a_field nat sample_adapter
              "37i9dQZF1DXcBWIGoYBM5M" None (init 0) Hid) as (Htext & Hcalls & _).
  exact (conj Hid (conj Htext Hcalls)).
Defined.






(** ** Counterexamples to the claims as written *)




(** ** The further properties at concrete calls *)

(** X4 at an expired token. *)
Lemma vendor_error_line_means_adapter_raised_witness :
  exists c e,
    calls (snd (SpotifyQueue (failing_adapter unauthorized) "get" None (init 0)))
    = [(c, Raise e)]
    /\ exn_type e = SpotifyException
    /\ exn_str e = exn_str unauthorized
    /\ fst (SpotifyQueue (failing_adapter unauthorized) "get" None (init 0))
       = Ret ("An error occurred with the Spotify Client: " ++ exn_str unauthorized).
Proof.
  exact (vendor_error_line_means_adapter_raised nat (failing_adapter unauthorized)
           sample_str (Queue "get" None) (init 0) (exn_str unauthorized) eq_refl).
Defined.


(** X6 at a track added to the queue. *)
Lemma status_result_witness :
  fst (SpotifyQueue sample_adapter "add" (Some "5u5aVJKjSMJr4zesMPz7bL") (init 0))
  = Ret "Track added to queue."
  /\ errors (snd (SpotifyQueue sample_adapter "add"
                    (Some "5u5aVJKjSMJr4zesMPz7bL") (init 0))) = [].
Proof.
  exact (status_result nat sample_adapter sample_str
           (Queue "add" (Some "5u5aVJKjSMJr4zesMPz7bL")) (init 0)
           (add_to_queue "5u5aVJKjSMJr4zesMPz7bL") PNone "Track added to queue."
           eq_refl eq_refl).
Defined.




(** X10 at an empty track id and at a track id. *)
Lemma queue_add_needs_nonempty_track_id_witness :
  (fst (SpotifyQueue sample_adapter "add" (Some "") (init 0))
   = Ret "track_id is required for add action"
   /\ calls (snd (SpotifyQueue sample_adapter "add" (Some "") (init 0))) = [])
  /\ calls (snd (SpotifyQueue sample_adapter "add"
                   (Some "5u5aVJKjSMJr4zesMPz7bL") (init 0)))
     = [(add_to_queue "5u5aVJKjSMJr4zesMPz7bL", Ret PNone)].
Proof.
  assert (Hid : "5u5aVJKjSMJr4zesMPz7bL" <> "") by discriminate.
  destruct (proj1 (queue_add_needs_nonempty_track_id nat sample_adapter
                     (Some "") (init 0)) (or_intror eq_refl))
    as (Htext & Hcalls & _).
  exact (conj (conj Htext Hcalls)
           (proj2 (queue_add_needs_nonempty_track_id nat sample_adapter
                     (Some "5u5aVJKjSMJr4zesMPz7bL") (init 0))
                  "5u5aVJKjSMJr4zesMPz7bL" eq_refl Hid)).
Defined.

(** X11 at an empty playlist id with track ids that do not parse. *)
Lemma missing_playlist_id_is_reported_first_witness :
  fst (SpotifyPlaylist sample_adapter "add_tracks" (Some "")
         (Some (IdsStr "[4uLU6hMCjMI75M1A2tKUQC")) None None (init 0))
  = Ret "playlist_id and track_ids are required for add_tracks action."
  /\ fst (SpotifyPlaylist sample_adapter "change_details" (Some "")
            (Some (IdsStr "[4uLU6hMCjMI75M1A2tKUQC")) None None (init 0))
     = Ret "playlist_id is required for change_details action.".
Proof.
  destruct (missing_playlist_id_is_reported_first nat sample_adapter (Some "")
              (Some (IdsStr "[4uLU6hMCjMI75M1A2tKUQC")) None None (init 0)
              (or_intror eq_refl))
    as (_ & (Hadd & _) & _ & (Hchange & _)).
  exact (conj Hadd Hchange).
Defined.



(** X14 at an empty name, and at a name without a description. *)
Lemma change_details_needs_a_nonempty_field_witness :
  fst (SpotifyPlaylist sample_adapter "change_details"
         (Some "37i9dQZF1DXcBWIGoYBM5M") None (Some "") None (init 0))
  = Ret "At least one of name or description is required."
  /\ calls (snd (SpotifyPlaylist sample_adapter "change_details"
                   (Some "37i9dQZF1DXcBWIGoYBM5M") None (Some "Road trip") None
                   (init 0)))
     = [(change_playlist_details "37i9dQZF1DXcBWIGoYBM5M" (Some "Road trip") None,
         Ret PNone)].
Proof.
  assert (Hid : "37i9dQZF1DXcBWIGoYBM5M" <> "") by discriminate.
  assert (Hname : "Road trip" <> "") by discriminate.
  exact (conj
    (proj1 (proj1 (change_details_needs_a_nonempty_field nat sample_adapter
                     "37i9dQZF1DXcBWIGoYBM5M" None (Some "") None (init 0) Hid)
                  (or_intror eq_refl) (or_introl eq_refl)))
    (proj2 (change_details_needs_a_nonempty_field nat sample_adapter
              "37i9dQZF1DXcBWIGoYBM5M" None (Some "Road trip") None (init 0) Hid)
           (or_introl (ex_intro _ "Road trip" (conj eq_refl Hname))))).
Defined.
